(** * useSWRPages: the page-offset state machine of [src/esm/use-swr-pages.js]

    The hook keeps three pieces of React state ([pageCount], [pageOffsets],
    [pageSWRs]), one ref ([emptyPageRef]) and writes to two shared stores:
    the SWR [cache] (persisted page count and offsets) and the module-level
    [pageCacheMap] (cached page elements per page key).

    The embedding is state passing: every callback of the hook is a function
    on [State].  A callback created by a render closes over the values that
    render saw; those captured values are explicit arguments here, separate
    from the state the callback later updates. *)

From stdpp Require Import base gmap strings list.

(** ** JavaScript values *)

(** The values that flow through the hook without being inspected (cursors,
    the fields of a SWR result).  Objects and functions are references and
    are compared by identity.  Numbers are the integers; [JNaN] is kept apart
    because it is the one value that is not [===] to itself. *)
Inductive jsval : Type :=
| JUndefined
| JNull
| JBool (b : bool)
| JNum (z : Z)
| JNaN
| JStr (s : string)
| JObj (ref : nat).

(** [a === b] *)
Definition strict_eq (a b : jsval) : bool :=
  match a, b with
  | JUndefined, JUndefined => true
  | JNull, JNull => true
  | JBool x, JBool y => Bool.eqb x y
  | JNum x, JNum y => Z.eqb x y
  | JStr x, JStr y => String.eqb x y
  | JObj x, JObj y => Nat.eqb x y
  | _, _ => false
  end.

(** [a !== b] *)
Definition strict_neq (a b : jsval) : bool := negb (strict_eq a b).

(** Whether [if (a)] takes the branch. *)
Definition truthy (a : jsval) : bool :=
  match a with
  | JUndefined | JNull | JNaN => false
  | JBool b => b
  | JNum z => negb (Z.eqb z 0)
  | JStr s => negb (Nat.eqb (String.length s) 0)
  | JObj _ => true
  end.

(** ** JavaScript arrays

    An array is the list of its elements; a hole reads as [hole]
    ([undefined]).  Reading past the end gives [undefined]; assigning past
    the end extends the array, leaving holes in between. *)
Section js_array.
Context {A : Type} (hole : A).

(** [arr[i]] *)
Definition js_get (arr : list A) (i : nat) : A := default hole (arr !! i).

(** [arr[i] = v] on a copy of [arr] *)
Definition js_set (arr : list A) (i : nat) (v : A) : list A :=
  if decide (i < length arr) then <[i:=v]> arr
  else arr ++ replicate (i - length arr) hole ++ [v].
End js_array.

(** ** Data of the hook *)

(** What [useSWR] returns and [withSWR] receives. *)
Record SWR : Type := mkSWR {
  data : jsval;
  error : jsval;
  revalidate : jsval;
  isValidating : jsval;
  mutate : jsval
}.

(** The closure [getWithSWR(id)] built inside [useMemo]: besides [id] it
    captures the [pageSWRs] and [pageOffsets] of the render that built it. *)
Record Reporter : Type := mkReporter {
  rep_pageSWRs : list (option SWR);
  rep_pageOffsets : list jsval;
  rep_id : nat
}.

(** [React.createElement(Page, { key, offset, withSWR })]; the key
    [`page-${offset}-${i}`] is kept as the pair it is printed from. *)
Record Element : Type := mkElement {
  el_key : jsval * nat;
  el_offset : jsval;
  el_withSWR : Reporter
}.

(** One entry of the array [pageCacheMap.get(pageKey)]. *)
Record PageCacheEntry : Type := mkEntry {
  component : Element;
  pageFn : nat;
  offset : jsval
}.

(** What a page function returns: nothing, an array of items, a single
    element such as a placeholder (an object without a [length]), or a
    primitive (React renders booleans, numbers and strings as well). *)
Inductive rendered : Type :=
| RUndefined
| RNull
| RItems (items : list jsval)
| RElement (ref : nat)
| RBool (b : bool)
| RNum (z : Z)
| RNaN
| RStr (str : string).

(** The values this hook stores in the SWR cache: a page count under
    [pageCountKey], an array of offsets under [pageOffsetKey]. *)
Inductive cache_val : Type :=
| CNum (n : nat)
| CArr (arr : list jsval).

(** State updates and store writes, newest first in [effects]. *)
Inductive Effect : Type :=
| SetPageSWRs (swrs : list (option SWR))
| SetPageCount (n : nat)
| SetPageOffsets (arr : list jsval)
| CacheSet (key : string) (v : cache_val)
| PageCacheMapSet (key : string).

Record State : Type := mkState {
  pageCount : nat;
  pageOffsets : list jsval;
  pageSWRs : list (option SWR);
  emptyPageRef : jsval;
  cache : gmap string cache_val;
  pageCacheMap : gmap string (list (option PageCacheEntry));
  effects : list Effect
}.

(** *** State updates *)

Definition log (e : Effect) (s : State) : State :=
  mkState (pageCount s) (pageOffsets s) (pageSWRs s) (emptyPageRef s)
          (cache s) (pageCacheMap s) (e :: effects s).

(** [cache.set(key, v)] *)
Definition cache_set (key : string) (v : cache_val) (s : State) : State :=
  log (CacheSet key v)
      (mkState (pageCount s) (pageOffsets s) (pageSWRs s) (emptyPageRef s)
               (<[key:=v]> (cache s)) (pageCacheMap s) (effects s)).

(** [setPageSWRs(f)] *)
Definition setPageSWRs (f : list (option SWR) → list (option SWR)) (s : State) : State :=
  log (SetPageSWRs (f (pageSWRs s)))
      (mkState (pageCount s) (pageOffsets s) (f (pageSWRs s)) (emptyPageRef s)
               (cache s) (pageCacheMap s) (effects s)).

(** The state part of [setPageCount(c => ...)], once the updater returned [n]. *)
Definition setPageCount (n : nat) (s : State) : State :=
  log (SetPageCount n)
      (mkState n (pageOffsets s) (pageSWRs s) (emptyPageRef s)
               (cache s) (pageCacheMap s) (effects s)).

(** The state part of [setPageOffsets(arr => ...)], once the updater returned [arr]. *)
Definition setPageOffsets (arr : list jsval) (s : State) : State :=
  log (SetPageOffsets arr)
      (mkState (pageCount s) arr (pageSWRs s) (emptyPageRef s)
               (cache s) (pageCacheMap s) (effects s)).

(** [pageCacheMap.set(key, [])] *)
Definition pageCacheMap_reset (key : string) (s : State) : State :=
  log (PageCacheMapSet key)
      (mkState (pageCount s) (pageOffsets s) (pageSWRs s) (emptyPageRef s)
               (cache s) (<[key:=[]]> (pageCacheMap s)) (effects s)).

(** [emptyPageRef.current = v] *)
Definition set_emptyPageRef (v : jsval) (s : State) : State :=
  mkState (pageCount s) (pageOffsets s) (pageSWRs s) v
          (cache s) (pageCacheMap s) (effects s).

(** ** The hook *)

Section useSWRPages.
(** The arguments of [useSWRPages(pageKey, pageFn, SWRToOffset, deps)] that
    the state machine depends on. *)
Variable pageKey : string.
Variable SWRToOffset : SWR → nat → jsval.

Definition pageCountKey : string := "_swr_page_count_" +:+ pageKey.
Definition pageOffsetKey : string := "_swr_page_offset_" +:+ pageKey.

(** [useState(cache.get(pageCountKey) || 1)]: a missing entry and the
    number 0 are falsy.  An array under this key is never written by the
    hook and falls outside the model. *)
Definition initialPageCount (c : gmap string cache_val) : option nat :=
  match c !! pageCountKey with
  | None => Some 1
  | Some (CNum n) => Some (if Nat.eqb n 0 then 1 else n)
  | Some (CArr _) => None
  end.

(** [useState(cache.get(pageOffsetKey) || [null])]: every array is truthy.
    A number under this key is never written by the hook and falls outside
    the model. *)
Definition initialPageOffsets (c : gmap string cache_val) : option (list jsval) :=
  match c !! pageOffsetKey with
  | None => Some [JNull]
  | Some (CArr arr) => Some arr
  | Some (CNum _) => None
  end.

(** The state of the first render, given the two shared stores:
    [pageSWRs] starts as [[]] and [emptyPageRef] as [false]. *)
Definition initialState (c : gmap string cache_val)
    (m : gmap string (list (option PageCacheEntry))) : option State :=
  n ← initialPageCount c;
  arr ← initialPageOffsets c;
  Some (mkState n arr [] (JBool false) c m []).

(** [Page] (lines 94-101): [emptyPageRef.current = dataList && !dataList.length].
    [&&] yields a falsy left operand itself ([undefined], [null], [false],
    [0], [NaN], the empty string).  For a truthy operand the result is
    [!dataList.length]: an element, [true] and a number have no [length], so
    it is [true] for them; an array and a string have one. *)
Definition emptyFlag (dataList : rendered) : jsval :=
  match dataList with
  | RUndefined => JUndefined
  | RNull => JNull
  | RItems items => JBool (Nat.eqb (length items) 0)
  | RElement _ => JBool true
  | RBool false => JBool false
  | RBool true => JBool true
  | RNum z => if Z.eqb z 0 then JNum 0 else JBool true
  | RNaN => JNaN
  | RStr str => if Nat.eqb (String.length str) 0 then JStr str else JBool false
  end.

Definition Page (dataList : rendered) (s : State) : State :=
  set_emptyPageRef (emptyFlag dataList) s.

(** [resetPages] (lines 102-113) *)
Definition resetPages (s : State) : State :=
  let s1 := setPageSWRs (λ _, []) s in
  let s2 := setPageCount 1 (cache_set pageCountKey (CNum 1) s1) in
  let s3 := setPageOffsets [JNull] (cache_set pageOffsetKey (CArr [JNull]) s2) in
  pageCacheMap_reset pageKey s3.

(** The derived flags (lines 117-119) *)
Definition isReachingEnd (s : State) : bool :=
  strict_eq (js_get JUndefined (pageOffsets s) (pageCount s)) JNull.

Definition isLoadingMore (s : State) : bool :=
  Nat.ltb (length (pageOffsets s)) (pageCount s).

(** [isReachingEnd && pageCount === 1 && emptyPageRef.current]: when the
    first two operands are [true] the result is whatever the ref holds. *)
Definition isEmpty (s : State) : jsval :=
  if negb (isReachingEnd s) then JBool false
  else if negb (Nat.eqb (pageCount s) 1) then JBool false
  else emptyPageRef s.

(** [loadMore] (lines 120-127).  [r] is the state of the render that
    created the callback: the guard reads that render's flags.  The updater
    [c => c + 1] runs on the state current when the update is applied. *)
Definition loadMore (r : State) (s : State) : State :=
  if isLoadingMore r || isReachingEnd r then s
  else setPageCount (pageCount s + 1)
         (cache_set pageCountKey (CNum (pageCount s + 1)) s).

(** The identity test of [getWithSWR] (lines 132-135). *)
Definition swrChanged (stored : option SWR) (swr : SWR) : bool :=
  match stored with
  | None => true
  | Some o =>
      strict_neq (data o) (data swr)
      || strict_neq (error o) (error swr)
      || strict_neq (revalidate o) (revalidate swr)
  end.

(** The function passed to [setTimeout] (lines 137-161).  [pageOffsets_r]
    is the array the enclosing render saw; the two updaters work on the
    arrays current when they run. *)
Definition reportCallback (pageOffsets_r : list jsval) (id : nat) (swr : SWR)
    (s : State) : State :=
  let s1 :=
    setPageSWRs (λ swrs,
      js_set None swrs id
        (Some (mkSWR (data swr) (error swr) (revalidate swr)
                     (isValidating swr) (mutate swr)))) s in
  if strict_neq (data swr) JUndefined then
    let newPageOffset := SWRToOffset swr id in
    if strict_neq (js_get JUndefined pageOffsets_r (id + 1)) newPageOffset then
      let _arr := js_set JUndefined (pageOffsets s1) (id + 1) newPageOffset in
      setPageOffsets _arr (cache_set pageOffsetKey (CArr _arr) s1)
    else s1
  else s1.

(** [getWithSWR(id)(swr)] (lines 131-164): the callback it schedules, if
    any.  [pageSWRs_r] and [pageOffsets_r] are the arrays of the render in
    which [useMemo] built the closure. *)
Definition getWithSWR (pageSWRs_r : list (option SWR)) (pageOffsets_r : list jsval)
    (id : nat) (swr : SWR) : option (State → State) :=
  if swrChanged (js_get None pageSWRs_r id) swr
  then Some (reportCallback pageOffsets_r id swr)
  else None.

(** Calling a page's [withSWR] and letting the timer fire. *)
Definition report (rp : Reporter) (swr : SWR) (s : State) : State :=
  match getWithSWR (rep_pageSWRs rp) (rep_pageOffsets rp) (rep_id rp) swr with
  | Some callback => callback s
  | None => s
  end.

(** The body of [useMemo] (lines 166-185): one loop step for slot [i]. *)
Definition renderSlot (_pageFn : nat) (s : State)
    (acc : list (option PageCacheEntry) * list Element) (i : nat)
    : list (option PageCacheEntry) * list Element :=
  let '(pageCache, p) := acc in
  let fresh :=
    mkEntry (mkElement (js_get JUndefined (pageOffsets s) i, i)
                       (js_get JUndefined (pageOffsets s) i)
                       (mkReporter (pageSWRs s) (pageOffsets s) i))
            _pageFn
            (js_get JUndefined (pageOffsets s) i) in
  match js_get None pageCache i with
  | Some e =>
      if strict_neq (offset e) (js_get JUndefined (pageOffsets s) i)
         || negb (Nat.eqb (pageFn e) _pageFn)
      then (js_set None pageCache i (Some fresh), p ++ [component fresh])
      else (pageCache, p ++ [component e])
  | None => (js_set None pageCache i (Some fresh), p ++ [component fresh])
  end.

(** The whole [useMemo] body: the returned [pages] and the state, whose
    [pageCacheMap] entry was filled in place. *)
Definition renderPages (_pageFn : nat) (s : State) : list Element * State :=
  let s0 :=
    match pageCacheMap s !! pageKey with
    | None => pageCacheMap_reset pageKey s
    | Some _ => s
    end in
  let pageCache := default [] (pageCacheMap s0 !! pageKey) in
  let '(pageCache', p) :=
    foldl (renderSlot _pageFn s0) (pageCache, []) (seq 0 (pageCount s0)) in
  (p, mkState (pageCount s0) (pageOffsets s0) (pageSWRs s0) (emptyPageRef s0)
              (cache s0) (<[pageKey:=pageCache']> (pageCacheMap s0)) (effects s0)).

(** *** The operations as the latest render exposes them

    [LoadMore s] is a call of [loadMore] through the callback that the render
    of the current state [s] returned: a render separates it from whatever
    changed the state before.  A call through the callback of an earlier
    render [r] is [loadMore r s].  Likewise [ReportFetchResult] is a report
    through a reporter built by the render of the current state, and
    [report rp] one through any reporter [rp]. *)

Definition LoadMore (s : State) : State := loadMore s s.

Definition ReportFetchResult (id : nat) (swr : SWR) (s : State) : State :=
  report (mkReporter (pageSWRs s) (pageOffsets s) id) swr s.

(** *** Reachable states

    The first render with nothing persisted, then any interleaving of the
    operations.  [loadMore] may be called through the callback of any render
    [r], the current one or an earlier one.  A report may come from any
    reporter, whatever arrays it captured: the page cache keeps elements, and
    with them reporters, of earlier renders. *)
Inductive reachable : State → Prop :=
| reach_init c m s :
    c !! pageCountKey = None → c !! pageOffsetKey = None →
    initialState c m = Some s → reachable s
| reach_reset s : reachable s → reachable (resetPages s)
| reach_loadMore r s : reachable s → reachable (loadMore r s)
| reach_report rp swr s : reachable s → reachable (report rp swr s)
| reach_page dataList s : reachable s → reachable (Page dataList s)
| reach_render _pageFn s : reachable s → reachable (renderPages _pageFn s).2.

End useSWRPages.

Arguments reachable pageKey SWRToOffset s : assert.

(** ** A concrete controller

    A list under the page key ["projects"].  The API answers with response
    objects: [JObj 1] is a short (last) page; [JObj 2] and [JObj 4] are full
    pages whose last item gives the cursor ["c1"], [JObj 3] one whose last
    item gives ["c2"]. *)

Definition projects : string := "projects".

Definition nextCursor (swr : SWR) (id : nat) : jsval :=
  match data swr with
  | JObj 2 => JStr "c1"
  | JObj 3 => JStr "c2"
  | JObj 4 => JStr "c1"
  | _ => JNull
  end.

Definition response (d : jsval) : SWR :=
  mkSWR d JUndefined (JObj 100) (JBool false) (JObj 101).

(** The same result while SWR revalidates: only [isValidating] differs. *)
Definition revalidating (d : jsval) : SWR :=
  mkSWR d JUndefined (JObj 100) (JBool true) (JObj 101).

(** The first render when nothing is persisted and nothing is cached. *)
Definition fresh : State := mkState 1 [JNull] [] (JBool false) ∅ ∅ [].

(** Mounting: the first render fills the page list, the effect of line 115
    runs [resetPages], and the next render fills the page list again. *)
Definition mounted : list Element * State :=
  renderPages projects 0 (resetPages projects (renderPages projects 0 fresh).2).

(** The reporter that the [i]-th page of a rendered page list was given. *)
Definition reporterOf (pages : list Element) (i : nat) : option Reporter :=
  el_withSWR <$> pages !! i.

(** *** A run with the default [deps]

    The page of slot 0 reports its first data (a full page), the hook renders
    again, and SWR revalidates: the page reports the same data, error and
    revalidate handle once more, through the reporter its element carries. *)
Definition cachedReporter : Reporter := mkReporter [] [JNull] 0.

Definition loaded : State :=
  report projects nextCursor cachedReporter (response (JObj 2)) mounted.2.

Definition rerendered : list Element * State := renderPages projects 0 loaded.

Definition repeated : State :=
  report projects nextCursor cachedReporter (revalidating (JObj 2)) rerendered.2.

(** *** A run where [deps] change after the first data

    The page function gets a new identity, so the element of slot 0 is built
    anew, when the next offset ["c1"] is known.  Then the data of slot 0
    changes to a page ending at ["c2"], and later to one ending at ["c1"]. *)
Definition rebuilt : list Element * State := renderPages projects 1 loaded.

Definition rebuiltReporter : Reporter :=
  mkReporter (pageSWRs loaded) (pageOffsets loaded) 0.

Definition moved : State :=
  report projects nextCursor rebuiltReporter (response (JObj 3)) rebuilt.2.

Definition movedRendered : list Element * State := renderPages projects 1 moved.

Definition movedBack : State :=
  report projects nextCursor rebuiltReporter (response (JObj 4)) movedRendered.2.

(** ** The page list, slot by slot *)

(** The entry that lines 177-181 build for slot [i]. *)
Definition freshEntry (_pageFn : nat) (s : State) (i : nat) : PageCacheEntry :=
  mkEntry (mkElement (js_get JUndefined (pageOffsets s) i, i)
                     (js_get JUndefined (pageOffsets s) i)
                     (mkReporter (pageSWRs s) (pageOffsets s) i))
          _pageFn
          (js_get JUndefined (pageOffsets s) i).

(** The test of lines 172-174 fails for a cached entry: the entry is kept. *)
Definition keepsEntry (_pageFn : nat) (s : State) (i : nat) (e : PageCacheEntry) : bool :=
  negb (strict_neq (offset e) (js_get JUndefined (pageOffsets s) i)
        || negb (Nat.eqb (pageFn e) _pageFn)).

(** The entry found at index [i] of the page cache once the loop body ran
    for slot [i]. *)
Definition slotEntry (_pageFn : nat) (s : State)
    (pageCache : list (option PageCacheEntry)) (i : nat) : PageCacheEntry :=
  match js_get None pageCache i with
  | Some e => if keepsEntry _pageFn s i e then e else freshEntry _pageFn s i
  | None => freshEntry _pageFn s i
  end.

(** ** One step of the hook

    Any callback the hook ever handed out may run: [loadMore] of any render
    [r], a report through any reporter, [resetPages], a page render, a render
    of the page list. *)
Inductive step (pageKey : string) (SWRToOffset : SWR → nat → jsval)
    : State → State → Prop :=
| step_reset s : step pageKey SWRToOffset s (resetPages pageKey s)
| step_loadMore r s : step pageKey SWRToOffset s (loadMore pageKey r s)
| step_report rp swr s :
    step pageKey SWRToOffset s (report pageKey SWRToOffset rp swr s)
| step_page dataList s : step pageKey SWRToOffset s (Page dataList s)
| step_render _pageFn s :
    step pageKey SWRToOffset s (renderPages pageKey _pageFn s).2.

(** ** Values and arrays *)



Lemma strict_neq_undefined a : strict_neq a JUndefined = false ↔ a = JUndefined.
Proof. unfold strict_neq. destruct a; simpl; split; (done || discriminate). Qed.

Section js_array_facts.
Context {A : Type} (hole : A).
Implicit Types (arr : list A) (i j : nat) (v : A).

Lemma js_get_ge arr i : length arr ≤ i → js_get hole arr i = hole.
Proof. intros H. unfold js_get. by rewrite lookup_ge_None_2. Qed.

Lemma js_set_length arr i v :
  length (js_set hole arr i v) = length arr `max` (i + 1).
Proof.
  unfold js_set. case_decide.
  - rewrite length_insert. lia.
  - rewrite !length_app, length_replicate. simpl. lia.
Qed.

Lemma js_set_length_le arr i v : length arr ≤ length (js_set hole arr i v).
Proof. rewrite js_set_length. lia. Qed.

Lemma js_get_set_eq arr i v : js_get hole (js_set hole arr i v) i = v.
Proof.
  unfold js_get, js_set. case_decide.
  - by rewrite list_lookup_insert_eq.
  - rewrite lookup_app_r by lia.
    rewrite lookup_app_r by (rewrite length_replicate; lia).
    rewrite length_replicate.
    by replace (i - length arr - (i - length arr)) with 0 by lia.
Qed.

Lemma js_get_set_ne arr i j v :
  i ≠ j → js_get hole (js_set hole arr i v) j = js_get hole arr j.
Proof.
  intros Hne. unfold js_get, js_set. case_decide.
  - by rewrite list_lookup_insert_ne.
  - destruct (decide (j < length arr)) as [Hj|Hj].
    + by rewrite lookup_app_l.
    + rewrite (lookup_ge_None_2 arr j) by lia.
      rewrite lookup_app_r by lia.
      destruct (decide (j - length arr < i - length arr)) as [Hk|Hk].
      * rewrite lookup_app_l by (by rewrite length_replicate).
        by rewrite lookup_replicate_2.
      * rewrite lookup_app_r by (rewrite length_replicate; lia).
        rewrite length_replicate.
        rewrite lookup_ge_None_2; [done | simpl; lia].
Qed.
End js_array_facts.

(** The two cache keys of one hook never coincide, whatever the page keys. *)
Lemma pageCountKey_ne_pageOffsetKey k1 k2 : pageCountKey k1 ≠ pageOffsetKey k2.
Proof. unfold pageCountKey, pageOffsetKey. simpl. discriminate. Qed.

(** ** Frame facts of the operations *)

Section frame.
Variable pageKey : string.
Variable SWRToOffset : SWR → nat → jsval.
Implicit Types (s r : State) (swr : SWR) (id : nat) (rp : Reporter).

Lemma initialState_default c m s :
  c !! pageCountKey pageKey = None → c !! pageOffsetKey pageKey = None →
  initialState pageKey c m = Some s →
  s = mkState 1 [JNull] [] (JBool false) c m [].
Proof.
  intros Hc Ho. unfold initialState, initialPageCount, initialPageOffsets.
  rewrite Hc, Ho. simpl. congruence.
Qed.

Lemma report_cases rp swr s :
  report pageKey SWRToOffset rp swr s = s ∨
  report pageKey SWRToOffset rp swr s =
    reportCallback pageKey SWRToOffset (rep_pageOffsets rp) (rep_id rp) swr s.
Proof. unfold report, getWithSWR. destruct (swrChanged _ _); auto. Qed.

Lemma reportCallback_pageCount offs id swr s :
  pageCount (reportCallback pageKey SWRToOffset offs id swr s) = pageCount s.
Proof. unfold reportCallback. by repeat case_match. Qed.

Lemma reportCallback_pageOffsets offs id swr s :
  pageOffsets (reportCallback pageKey SWRToOffset offs id swr s) =
    if strict_neq (data swr) JUndefined
       && strict_neq (js_get JUndefined offs (id + 1)) (SWRToOffset swr id)
    then js_set JUndefined (pageOffsets s) (id + 1) (SWRToOffset swr id)
    else pageOffsets s.
Proof. unfold reportCallback. by repeat case_match. Qed.

Lemma reportCallback_pageSWRs offs id swr s :
  pageSWRs (reportCallback pageKey SWRToOffset offs id swr s) =
    js_set None (pageSWRs s) id
      (Some (mkSWR (data swr) (error swr) (revalidate swr)
                   (isValidating swr) (mutate swr))).
Proof. unfold reportCallback. by repeat case_match. Qed.

Lemma reportCallback_length offs id swr s :
  length (pageOffsets s) ≤
  length (pageOffsets (reportCallback pageKey SWRToOffset offs id swr s)).
Proof.
  rewrite reportCallback_pageOffsets. case_match; [apply js_set_length_le | done].
Qed.

Lemma reportCallback_other_offset offs id swr s j :
  j ≠ id + 1 →
  js_get JUndefined (pageOffsets (reportCallback pageKey SWRToOffset offs id swr s)) j
  = js_get JUndefined (pageOffsets s) j.
Proof.
  intros Hj. rewrite reportCallback_pageOffsets.
  case_match; [by apply js_get_set_ne | done].
Qed.

Lemma renderPages_state _pageFn s :
  let s' := (renderPages pageKey _pageFn s).2 in
  pageCount s' = pageCount s ∧ pageOffsets s' = pageOffsets s ∧
  pageSWRs s' = pageSWRs s ∧ emptyPageRef s' = emptyPageRef s ∧
  cache s' = cache s.
Proof.
  unfold renderPages.
  destruct (pageCacheMap s !! pageKey); simpl;
    destruct (foldl _ _ _); simpl; auto.
Qed.

End frame.

Lemma fresh_reachable : reachable projects nextCursor fresh.
Proof. by apply (reach_init projects nextCursor ∅ ∅). Qed.

(** ** The claims *)

(** C1 (as amended).  The bound [pageCount <= pageOffsets.length + 1] holds
    in the default initial state and after [resetPages], and a report keeps
    it.  From a state where it holds, after any number of [loadMore] calls
    each made through the callback of the render of the current state (a
    render between every two calls, no report in between), [pageCount] is at
    most [pageOffsets.length + 1]; and [isLoadingMore] is true exactly when
    [pageCount > pageOffsets.length]. *)
Theorem LoadMore_sequence_bound pageKey SWRToOffset :
  (∀ c m s,
     c !! pageCountKey pageKey = None → c !! pageOffsetKey pageKey = None →
     initialState pageKey c m = Some s →
     pageCount s ≤ length (pageOffsets s) + 1) ∧
  (∀ s, pageCount (resetPages pageKey s)
          ≤ length (pageOffsets (resetPages pageKey s)) + 1) ∧
  (∀ rp swr s,
     pageCount s ≤ length (pageOffsets s) + 1 →
     pageCount (report pageKey SWRToOffset rp swr s)
       ≤ length (pageOffsets (report pageKey SWRToOffset rp swr s)) + 1) ∧
  (∀ s n,
     pageCount s ≤ length (pageOffsets s) + 1 →
     let s' := Nat.iter n (LoadMore pageKey) s in
     pageCount s' ≤ length (pageOffsets s') + 1 ∧
     (isLoadingMore s' = true ↔ pageCount s' > length (pageOffsets s'))).
Proof.
  split_and!.
  - intros c m s Hc Ho Hs.
    rewrite (initialState_default pageKey c m s Hc Ho Hs). simpl. lia.
  - intros s. simpl. lia.
  - intros rp swr s Hb.
    destruct (report_cases pageKey SWRToOffset rp swr s) as [-> | ->]; [done|].
    rewrite reportCallback_pageCount.
    pose proof (reportCallback_length pageKey SWRToOffset
                  (rep_pageOffsets rp) (rep_id rp) swr s). lia.
  - intros s n Hb s'. split.
    + subst s'. induction n as [|n IH]; simpl; [done|].
      unfold LoadMore at 1 3. unfold loadMore.
      destruct (isLoadingMore _) eqn:Hl; simpl; [done|].
      destruct (isReachingEnd _); simpl; [done|].
      unfold isLoadingMore in Hl. apply Nat.ltb_ge in Hl. lia.
    + unfold isLoadingMore. rewrite Nat.ltb_lt. lia.
Qed.

Lemma LoadMore_sequence_bound_witness :
  pageCount fresh ≤ length (pageOffsets fresh) + 1 ∧
  let s' := Nat.iter 3 (LoadMore projects) fresh in
  pageCount s' = 2 ∧
  pageCount s' ≤ length (pageOffsets s') + 1 ∧
  (isLoadingMore s' = true ↔ pageCount s' > length (pageOffsets s')).
Proof.
  destruct (LoadMore_sequence_bound projects nextCursor) as (_ & _ & _ & Hseq).
  assert (Hb : pageCount fresh ≤ length (pageOffsets fresh) + 1) by (simpl; lia).
  destruct (Hseq fresh 3 Hb) as (H1 & H2).
  split; [exact Hb|]. split; [reflexivity|]. split; [exact H1 | exact H2].
Defined.

(** C1 as stated fails: two [loadMore] calls through the callback of one
    render (no render in between) both pass the guard of that render, and
    [pageCount] is 3 with a single offset. *)
Lemma loadMore_twice_exceeds_bound :
  let s := loadMore projects fresh (loadMore projects fresh fresh) in
  reachable projects nextCursor s ∧
  pageCount s = 3 ∧ length (pageOffsets s) = 1 ∧
  ¬ pageCount s ≤ length (pageOffsets s) + 1.
Proof.
  split_and!; [|reflexivity|reflexivity|simpl; lia].
  apply reach_loadMore, reach_loadMore, fresh_reachable.
Qed.

(** C2 (as amended).  [loadMore] leaves the whole state (stores and effect
    log included) as it is when [isLoadingMore] or [isReachingEnd] held in
    the render [r] that made the callback; otherwise it adds one to
    [pageCount] and writes the new count to the cache under [pageCountKey],
    touching nothing else.  For the callback of the current render the flags
    are the current ones.  When all known offsets are in use
    ([pageCount = pageOffsets.length], as before the first fetch resolves,
    where [pageCount = 1] and [pageOffsets = [null]]), a second call made
    through the callback of the render that follows the first does nothing:
    the count grows by one.  Two calls through one and the same callback
    that passes the guard add two. *)
Theorem LoadMore_guarded pageKey s :
  (∀ r, isLoadingMore r || isReachingEnd r = true → loadMore pageKey r s = s) ∧
  (∀ r, isLoadingMore r || isReachingEnd r = false →
     loadMore pageKey r s =
       mkState (pageCount s + 1) (pageOffsets s) (pageSWRs s) (emptyPageRef s)
               (<[pageCountKey pageKey := CNum (pageCount s + 1)]> (cache s))
               (pageCacheMap s)
               (SetPageCount (pageCount s + 1)
                  :: CacheSet (pageCountKey pageKey) (CNum (pageCount s + 1))
                  :: effects s)) ∧
  (isLoadingMore s || isReachingEnd s = false →
   pageCount s = length (pageOffsets s) →
     LoadMore pageKey (LoadMore pageKey s) = LoadMore pageKey s ∧
     pageCount (LoadMore pageKey (LoadMore pageKey s)) = pageCount s + 1) ∧
  (pageCount s = 1 → pageOffsets s = [JNull] →
     LoadMore pageKey (LoadMore pageKey s) = LoadMore pageKey s ∧
     pageCount (LoadMore pageKey (LoadMore pageKey s)) = 2) ∧
  (∀ r, isLoadingMore r || isReachingEnd r = false →
     pageCount (loadMore pageKey r (loadMore pageKey r s)) = pageCount s + 2).
Proof.
  assert (Hstep : isLoadingMore s || isReachingEnd s = false →
                  pageCount s = length (pageOffsets s) →
                  LoadMore pageKey (LoadMore pageKey s) = LoadMore pageKey s ∧
                  pageCount (LoadMore pageKey (LoadMore pageKey s)) = pageCount s + 1).
  { intros Hg Hlen.
    assert (H1 : LoadMore pageKey s =
                 setPageCount (pageCount s + 1)
                   (cache_set (pageCountKey pageKey) (CNum (pageCount s + 1)) s))
      by (unfold LoadMore, loadMore; by rewrite Hg).
    assert (H2 : isLoadingMore (LoadMore pageKey s) = true).
    { rewrite H1. unfold isLoadingMore. simpl. apply Nat.ltb_lt. lia. }
    assert (H3 : LoadMore pageKey (LoadMore pageKey s) = LoadMore pageKey s).
    { unfold LoadMore at 1. unfold loadMore. by rewrite H2. }
    split; [done|]. rewrite H3, H1. done. }
  split; [|split; [|split; [|split]]].
  - intros r Hg. unfold loadMore. by rewrite Hg.
  - intros r Hg. unfold loadMore. by rewrite Hg.
  - exact Hstep.
  - intros Hc Ho.
    replace 2 with (pageCount s + 1) by (rewrite Hc; reflexivity).
    apply Hstep; [|by rewrite Hc, Ho].
    unfold isLoadingMore, isReachingEnd. by rewrite Hc, Ho.
  - intros r Hg. unfold loadMore. rewrite Hg. simpl. lia.
Qed.

Lemma LoadMore_guarded_witness :
  (isLoadingMore fresh || isReachingEnd fresh = false ∧
   pageCount fresh = 1 ∧ pageOffsets fresh = [JNull] ∧
   pageCount (LoadMore projects fresh) = 2 ∧
   cache (LoadMore projects fresh) !! pageCountKey projects = Some (CNum 2) ∧
   pageCount (LoadMore projects (LoadMore projects fresh)) = 2 ∧
   pageCount (loadMore projects fresh (loadMore projects fresh fresh)) = 3) ∧
  (isLoadingMore (LoadMore projects fresh)
     || isReachingEnd (LoadMore projects fresh) = true ∧
   LoadMore projects (LoadMore projects fresh) = LoadMore projects fresh).
Proof.
  destruct (LoadMore_guarded projects fresh) as (_ & Hinc & _ & Hfresh & Htwo).
  destruct (LoadMore_guarded projects (LoadMore projects fresh)) as (Hnoop & _).
  assert (Hg : isLoadingMore fresh || isReachingEnd fresh = false) by reflexivity.
  assert (Hg' : isLoadingMore (LoadMore projects fresh)
                || isReachingEnd (LoadMore projects fresh) = true) by reflexivity.
  split.
  - split_and!; [done..| | | |].
    + unfold LoadMore. by rewrite (Hinc fresh Hg).
    + unfold LoadMore. rewrite (Hinc fresh Hg). simpl. by rewrite lookup_insert_eq.
    + by destruct (Hfresh eq_refl eq_refl).
    + exact (Htwo fresh Hg).
  - split; [exact Hg' | exact (Hnoop _ Hg')].
Defined.

(** C2 as stated fails: after a first call the state is loading, yet a
    second call through the same callback (no render in between) is not a
    no-op: it adds a second page and persists the count 3. *)
Lemma loadMore_second_call_not_noop :
  let s1 := loadMore projects fresh fresh in
  let s2 := loadMore projects fresh s1 in
  isLoadingMore s1 = true ∧
  s2 ≠ s1 ∧
  pageCount s1 = 2 ∧ pageCount s2 = 3 ∧
  cache s2 !! pageCountKey projects = Some (CNum 3).
Proof.
  split_and!; [reflexivity | discriminate | reflexivity | reflexivity |].
  vm_compute. reflexivity.
Qed.

(** C4.  After [resetPages()], whatever the state before: [pageCount] is 1,
    [pageOffsets] is [[null]], the cache holds 1 under [pageCountKey] and
    [[null]] under [pageOffsetKey], and [pageCacheMap] holds the empty array
    under [pageKey].  (The stored SWR results are cleared as well.) *)
Theorem resetPages_result pageKey s :
  let s' := resetPages pageKey s in
  pageCount s' = 1 ∧
  pageOffsets s' = [JNull] ∧
  cache s' !! pageCountKey pageKey = Some (CNum 1) ∧
  cache s' !! pageOffsetKey pageKey = Some (CArr [JNull]) ∧
  pageCacheMap s' !! pageKey = Some [] ∧
  pageSWRs s' = [].
Proof.
  simpl. split_and!; [done..| | | |done].
  - rewrite lookup_insert_ne by (apply not_eq_sym, pageCountKey_ne_pageOffsetKey).
    by rewrite lookup_insert_eq.
  - by rewrite lookup_insert_eq.
  - by rewrite lookup_insert_eq.
Qed.

(** C8.  In every state reachable from the default initial state by
    [loadMore], [resetPages], reports of fetch results (through any
    reporter), page renders and renders of the page list, [pageOffsets[0]]
    is [null]. *)
Theorem reachable_offset_0_null pageKey SWRToOffset s :
  reachable pageKey SWRToOffset s →
  js_get JUndefined (pageOffsets s) 0 = JNull.
Proof.
  induction 1 as [c m s Hc Ho Hs|s _ IH|r s _ IH|rp swr s _ IH|d s _ IH|f s _ IH].
  - (* first render, nothing persisted *)
    by rewrite (initialState_default pageKey c m s Hc Ho Hs).
  - (* resetPages *) done.
  - (* loadMore *) unfold loadMore. by destruct (_ || _).
  - (* a report writes index id + 1 *)
    destruct (report_cases pageKey SWRToOffset rp swr s) as [-> | ->]; [done|].
    rewrite reportCallback_other_offset; [done | lia].
  - (* a page render *) done.
  - (* the page list *)
    destruct (renderPages_state pageKey f s) as (_ & -> & _). done.
Qed.

Lemma reachable_offset_0_null_witness :
  let s := ReportFetchResult projects nextCursor 0 (response (JObj 2))
             (LoadMore projects fresh) in
  reachable projects nextCursor s ∧
  pageOffsets s = [JNull; JStr "c1"] ∧
  js_get JUndefined (pageOffsets s) 0 = JNull.
Proof.
  assert (Hr : reachable projects nextCursor
                 (ReportFetchResult projects nextCursor 0 (response (JObj 2))
                    (LoadMore projects fresh))).
  { apply reach_report, reach_loadMore, fresh_reachable. }
  split; [exact Hr|]. split; [reflexivity|].
  exact (reachable_offset_0_null projects nextCursor _ Hr).
Defined.

(** C9.  [isLoadingMore] and [isReachingEnd] are never both true, in any
    state and so in every reachable one: when [pageCount > pageOffsets.length]
    the read [pageOffsets[pageCount]] is out of range and gives [undefined],
    which is not [=== null]. *)
Theorem loading_excludes_end s :
  (pageCount s > length (pageOffsets s) →
     js_get JUndefined (pageOffsets s) (pageCount s) = JUndefined) ∧
  (isLoadingMore s = true → isReachingEnd s = false) ∧
  isLoadingMore s && isReachingEnd s = false.
Proof.
  assert (H1 : pageCount s > length (pageOffsets s) →
               js_get JUndefined (pageOffsets s) (pageCount s) = JUndefined)
    by (intros H; apply js_get_ge; lia).
  assert (H2 : isLoadingMore s = true → isReachingEnd s = false).
  { unfold isLoadingMore, isReachingEnd. rewrite Nat.ltb_lt. intros H.
    by rewrite H1. }
  split_and!; [done..|].
  destruct (isLoadingMore s); [by rewrite H2 | done].
Qed.

Lemma loading_excludes_end_witness :
  let s := LoadMore projects fresh in
  pageCount s > length (pageOffsets s) ∧
  isLoadingMore s = true ∧
  js_get JUndefined (pageOffsets s) (pageCount s) = JUndefined ∧
  isReachingEnd s = false.
Proof.
  destruct (loading_excludes_end (LoadMore projects fresh)) as (H1 & H2 & _).
  assert (Hgt : pageCount (LoadMore projects fresh)
                > length (pageOffsets (LoadMore projects fresh))) by (simpl; lia).
  assert (Hl : isLoadingMore (LoadMore projects fresh) = true) by reflexivity.
  exact (conj Hgt (conj Hl (conj (H1 Hgt) (H2 Hl)))).
Defined.

(** ** Reports through a reporter built by the render of the current state *)

(** The callback that [getWithSWR] defers (the effect of a report), when the
    closure was built by the render of the current state, so that the array
    it compares against is the current one.  With defined [data] it takes
    [newPageOffset = SWRToOffset(swr, id)]; when [pageOffsets[id + 1] !==
    newPageOffset] it stores [newPageOffset] at index [id + 1] and writes the
    new array to the cache under [pageOffsetKey]; when they are [===] it
    writes neither.  With undefined [data] the offsets and the cache are left
    alone.  In each case the only other effect is the stored SWR result.
    This callback is what [ReportFetchResult] runs once the identity test
    lets the report through. *)
Theorem reportCallback_next_offset pageKey SWRToOffset id swr s :
  let s' := reportCallback pageKey SWRToOffset (pageOffsets s) id swr s in
  let newPageOffset := SWRToOffset swr id in
  (data swr ≠ JUndefined →
     (strict_neq (js_get JUndefined (pageOffsets s) (id + 1)) newPageOffset = true →
        pageOffsets s' = js_set JUndefined (pageOffsets s) (id + 1) newPageOffset ∧
        js_get JUndefined (pageOffsets s') (id + 1) = newPageOffset ∧
        cache s' = <[pageOffsetKey pageKey := CArr (pageOffsets s')]> (cache s) ∧
        effects s' =
          SetPageOffsets (pageOffsets s')
            :: CacheSet (pageOffsetKey pageKey) (CArr (pageOffsets s'))
            :: SetPageSWRs (pageSWRs s') :: effects s) ∧
     (strict_neq (js_get JUndefined (pageOffsets s) (id + 1)) newPageOffset = false →
        pageOffsets s' = pageOffsets s ∧ cache s' = cache s ∧
        effects s' = SetPageSWRs (pageSWRs s') :: effects s)) ∧
  (data swr = JUndefined →
     pageOffsets s' = pageOffsets s ∧ cache s' = cache s ∧
     effects s' = SetPageSWRs (pageSWRs s') :: effects s) ∧
  (swrChanged (js_get None (pageSWRs s) id) swr = true →
     ReportFetchResult pageKey SWRToOffset id swr s = s').
Proof.
  intros s' newPageOffset. subst s' newPageOffset.
  split; [|split].
  - intros Hd.
    assert (Hdef : strict_neq (data swr) JUndefined = true).
    { destruct (strict_neq (data swr) JUndefined) eqn:E; [done|].
      by apply strict_neq_undefined in E. }
    split; intros Hne; unfold reportCallback; rewrite Hdef, Hne; simpl.
    + split_and!; try done. apply js_get_set_eq.
    + done.
  - intros Hd. unfold reportCallback. rewrite Hd. simpl. done.
  - intros Hch. unfold ReportFetchResult, report, getWithSWR. simpl.
    by rewrite Hch.
Qed.

Lemma reportCallback_next_offset_example :
  let full := response (JObj 2) in
  let s1 := reportCallback projects nextCursor (pageOffsets fresh) 0 full fresh in
  let s2 := reportCallback projects nextCursor (pageOffsets s1) 0 full s1 in
  let s3 := reportCallback projects nextCursor (pageOffsets fresh) 0
              (response JUndefined) fresh in
  (data full ≠ JUndefined ∧
   strict_neq (js_get JUndefined (pageOffsets fresh) 1) (nextCursor full 0) = true ∧
   pageOffsets s1 = [JNull; JStr "c1"] ∧
   cache s1 !! pageOffsetKey projects = Some (CArr [JNull; JStr "c1"]) ∧
   ReportFetchResult projects nextCursor 0 full fresh = s1) ∧
  (strict_neq (js_get JUndefined (pageOffsets s1) 1) (nextCursor full 0) = false ∧
   pageOffsets s2 = pageOffsets s1 ∧ cache s2 = cache s1) ∧
  (data (response JUndefined) = JUndefined ∧
   pageOffsets s3 = [JNull] ∧ cache s3 = ∅).
Proof.
  intros full s1 s2 s3.
  destruct (reportCallback_next_offset projects nextCursor 0 full fresh)
    as (Hdef & _ & Hrun).
  destruct (reportCallback_next_offset projects nextCursor 0 full s1)
    as (Hdef1 & _ & _).
  destruct (reportCallback_next_offset projects nextCursor 0
              (response JUndefined) fresh) as (_ & Hundef & _).
  assert (Hd : data full ≠ JUndefined) by discriminate.
  destruct (Hdef Hd) as (Hw & _).
  destruct (Hdef1 Hd) as (_ & Hk).
  destruct (Hw eq_refl) as (Ho & _ & Hc & _).
  destruct (Hk eq_refl) as (Ho1 & Hc1 & _).
  destruct (Hundef eq_refl) as (Ho3 & Hc3 & _).
  split_and!.
  - exact Hd.
  - reflexivity.
  - exact Ho.
  - change (cache s1 !! pageOffsetKey projects = Some (CArr (pageOffsets s1))).
    unfold s1. rewrite Hc. apply lookup_insert_eq.
  - exact (Hrun eq_refl).
  - reflexivity.
  - exact Ho1.
  - exact Hc1.
  - reflexivity.
  - exact Ho3.
  - exact Hc3.
Defined.

(** A report whose [data], [error] and [revalidate] are [===] to those of the
    result that the reporter finds in its own [pageSWRs] schedules nothing:
    the state, stores and effect log included, is unchanged.  For a reporter
    built by the render of the current state that is the stored result, and
    a report repeated through such reporters changes nothing. *)
Theorem report_identical_noop pageKey SWRToOffset swr s :
  (∀ rp stored,
     js_get None (rep_pageSWRs rp) (rep_id rp) = Some stored →
     strict_eq (data stored) (data swr) = true →
     strict_eq (error stored) (error swr) = true →
     strict_eq (revalidate stored) (revalidate swr) = true →
     report pageKey SWRToOffset rp swr s = s) ∧
  (∀ id stored,
     js_get None (pageSWRs s) id = Some stored →
     strict_eq (data stored) (data swr) = true →
     strict_eq (error stored) (error swr) = true →
     strict_eq (revalidate stored) (revalidate swr) = true →
     ReportFetchResult pageKey SWRToOffset id swr s = s) ∧
  (∀ id,
     strict_eq (data swr) (data swr) = true →
     strict_eq (error swr) (error swr) = true →
     strict_eq (revalidate swr) (revalidate swr) = true →
     let s1 := ReportFetchResult pageKey SWRToOffset id swr s in
     ReportFetchResult pageKey SWRToOffset id swr s1 = s1).
Proof.
  assert (Hgen : ∀ s0 rp stored,
            js_get None (rep_pageSWRs rp) (rep_id rp) = Some stored →
            strict_eq (data stored) (data swr) = true →
            strict_eq (error stored) (error swr) = true →
            strict_eq (revalidate stored) (revalidate swr) = true →
            report pageKey SWRToOffset rp swr s0 = s0).
  { intros s0 rp stored Hst Hd He Hr. unfold report, getWithSWR.
    rewrite Hst. unfold swrChanged, strict_neq. by rewrite Hd, He, Hr. }
  split_and!.
  - apply Hgen.
  - intros id stored Hst. unfold ReportFetchResult. by apply Hgen.
  - intros id Hd He Hr s1.
    destruct (swrChanged (js_get None (pageSWRs s) id) swr) eqn:Hch.
    + unfold ReportFetchResult.
      apply (Hgen s1 _ (mkSWR (data swr) (error swr) (revalidate swr)
                              (isValidating swr) (mutate swr))); try done.
      simpl. subst s1. unfold ReportFetchResult, report, getWithSWR. simpl.
      rewrite Hch. rewrite reportCallback_pageSWRs. apply js_get_set_eq.
    + assert (Hs1 : s1 = s).
      { subst s1. unfold ReportFetchResult, report, getWithSWR. simpl.
        by rewrite Hch. }
      rewrite Hs1. unfold ReportFetchResult, report, getWithSWR. simpl.
      by rewrite Hch.
Qed.

Lemma report_identical_noop_example :
  let swr := response (JObj 2) in
  let s1 := ReportFetchResult projects nextCursor 0 swr fresh in
  js_get None (pageSWRs s1) 0 = Some swr ∧
  s1 ≠ fresh ∧
  ReportFetchResult projects nextCursor 0 swr s1 = s1 ∧
  report projects nextCursor (mkReporter (pageSWRs s1) (pageOffsets fresh) 0) swr s1 = s1.
Proof.
  intros swr s1.
  destruct (report_identical_noop projects nextCursor swr s1) as (Hrp & Hcur & _).
  destruct (report_identical_noop projects nextCursor swr fresh) as (_ & _ & Htwice).
  split_and!.
  - reflexivity.
  - discriminate.
  - exact (Htwice 0 eq_refl eq_refl eq_refl).
  - exact (Hrp (mkReporter (pageSWRs s1) (pageOffsets fresh) 0) swr
             eq_refl eq_refl eq_refl eq_refl).
Defined.

(** ** The claims about reports *)

(** C10.  A report for slot [id], through whichever reporter of that slot,
    changes at most the stored SWR result of slot [id] and the offset at
    index [id + 1]: [pageCount], every offset read at another index, every
    stored result read at another slot, the ref, the page cache and the
    persisted page count are as before. *)
Theorem report_frame pageKey SWRToOffset rp swr s :
  let s' := report pageKey SWRToOffset rp swr s in
  let id := rep_id rp in
  pageCount s' = pageCount s ∧
  (∀ j, j ≠ id + 1 →
     js_get JUndefined (pageOffsets s') j = js_get JUndefined (pageOffsets s) j) ∧
  (∀ j, j ≠ id → js_get None (pageSWRs s') j = js_get None (pageSWRs s) j) ∧
  emptyPageRef s' = emptyPageRef s ∧
  pageCacheMap s' = pageCacheMap s ∧
  cache s' !! pageCountKey pageKey = cache s !! pageCountKey pageKey.
Proof.
  intros s' id. subst s' id.
  destruct (report_cases pageKey SWRToOffset rp swr s) as [-> | ->]; [done|].
  split_and!.
  - apply reportCallback_pageCount.
  - intros j Hj. by apply reportCallback_other_offset.
  - intros j Hj. rewrite reportCallback_pageSWRs. by apply js_get_set_ne.
  - unfold reportCallback. by repeat case_match.
  - unfold reportCallback. by repeat case_match.
  - unfold reportCallback. repeat case_match; simpl; try done.
    by rewrite lookup_insert_ne
      by (apply not_eq_sym, pageCountKey_ne_pageOffsetKey).
Qed.

Lemma report_frame_witness :
  let s := LoadMore projects fresh in
  let s' := ReportFetchResult projects nextCursor 0 (response (JObj 2)) s in
  pageCount s' = 2 ∧
  js_get JUndefined (pageOffsets s') 0 = js_get JUndefined (pageOffsets s) 0 ∧
  js_get None (pageSWRs s') 1 = js_get None (pageSWRs s) 1 ∧
  pageOffsets s' ≠ pageOffsets s.
Proof.
  destruct (report_frame projects nextCursor
              (mkReporter (pageSWRs (LoadMore projects fresh))
                          (pageOffsets (LoadMore projects fresh)) 0)
              (response (JObj 2)) (LoadMore projects fresh)) as (Hc & Ho & Hs & _).
  split_and!.
  - exact Hc.
  - apply Ho. simpl. lia.
  - apply Hs. simpl. lia.
  - discriminate.
Defined.

(** C6, evaluated on the run with the default [deps].  The element of slot
    0 is kept by the page cache, and with it the reporter built before any
    result was stored.  The second report carries the [data], [error] and
    [revalidate] of the stored result; the reporter still reads the empty
    [pageSWRs] of the render that built it, so the identity test passes and
    the stored result, the offsets and the cache are all written again. *)
Theorem cached_reporter_repeats_writes :
  reporterOf mounted.1 0 = Some cachedReporter ∧
  reporterOf rerendered.1 0 = Some cachedReporter ∧
  (∃ stored,
     js_get None (pageSWRs rerendered.2) 0 = Some stored ∧
     strict_eq (data stored) (data (revalidating (JObj 2))) = true ∧
     strict_eq (error stored) (error (revalidating (JObj 2))) = true ∧
     strict_eq (revalidate stored) (revalidate (revalidating (JObj 2))) = true) ∧
  effects repeated =
    SetPageOffsets [JNull; JStr "c1"]
      :: CacheSet (pageOffsetKey projects) (CArr [JNull; JStr "c1"])
      :: SetPageSWRs [Some (revalidating (JObj 2))]
      :: effects rerendered.2.
Proof.
  split_and!; [vm_compute; reflexivity..| |vm_compute; reflexivity].
  exists (response (JObj 2)). split_and!; vm_compute; reflexivity.
Qed.

(** C3, evaluated on the two runs.  The comparison of line 152 reads the
    [pageOffsets] of the render that built the reporter, not the array the
    updater of line 153 receives.  In the first run the offset at index 1 is
    already ["c1"], the derived offset is ["c1"], and the array is written
    and persisted again.  In the second run the offset at index 1 is ["c2"],
    the derived offset is ["c1"], the callback runs (the new result is
    stored) and no offset is written: the reporter compares ["c1"] with the
    ["c1"] it captured. *)
Theorem cached_reporter_compares_captured_offset :
  (reporterOf rerendered.1 0 = Some cachedReporter ∧
   data (revalidating (JObj 2)) ≠ JUndefined ∧
   strict_neq (js_get JUndefined (pageOffsets rerendered.2) 1)
              (nextCursor (revalidating (JObj 2)) 0) = false ∧
   head (effects repeated) = Some (SetPageOffsets [JNull; JStr "c1"])) ∧
  (reporterOf rebuilt.1 0 = Some rebuiltReporter ∧
   reporterOf movedRendered.1 0 = Some rebuiltReporter ∧
   pageOffsets movedRendered.2 = [JNull; JStr "c2"] ∧
   data (response (JObj 4)) ≠ JUndefined ∧
   nextCursor (response (JObj 4)) 0 = JStr "c1" ∧
   strict_neq (js_get JUndefined (pageOffsets movedRendered.2) 1)
              (nextCursor (response (JObj 4)) 0) = true ∧
   js_get None (pageSWRs movedBack) 0 = Some (response (JObj 4)) ∧
   pageOffsets movedBack = [JNull; JStr "c2"] ∧
   cache movedBack !! pageOffsetKey projects = Some (CArr [JNull; JStr "c2"])).
Proof. split; split_and!; (discriminate || (vm_compute; reflexivity)). Qed.




(** C7, evaluated where the page function of slot 0 returns something other
    than an empty sequence.  The comment of line 97 takes the page for empty
    when [dataList] is [[]]; line 99 also records [true] for a single element
    (a placeholder, or a wrapper around the items), for [true] and for a
    number other than 0, none of which has a [length].  With one page that
    reached the end, [isEmpty] is [true] all the same. *)
Theorem isEmpty_without_empty_sequence :
  let run dataList :=
    ReportFetchResult projects nextCursor 0 (response (JObj 1))
      (Page dataList fresh) in
  reachable projects nextCursor (run (RElement 7)) ∧
  pageCount (run (RElement 7)) = 1 ∧
  js_get JUndefined (pageOffsets (run (RElement 7))) 1 = JNull ∧
  isEmpty (run (RElement 7)) = JBool true ∧
  isEmpty (run (RBool true)) = JBool true ∧
  isEmpty (run (RNum 5)) = JBool true ∧
  (∀ items, RElement 7 ≠ RItems items).
Proof.
  split_and!; [|reflexivity..|discriminate].
  apply reach_report, reach_page, fresh_reachable.
Qed.

(** ** Further properties of the hook *)

(** *** Arrays *)

Section js_array_more.
Context {A : Type} (hole : A).
Implicit Types (arr : list A) (i j : nat) (v : A).

Lemma js_set_lookup arr i v j :
  js_set hole arr i v !! j =
    if decide (j = i) then Some v
    else if decide (j < length arr) then arr !! j
    else if decide (j < i) then Some hole else None.
Proof.
  unfold js_set. destruct (decide (j = i)) as [->|Hne].
  - case_decide.
    + by rewrite list_lookup_insert_eq.
    + rewrite lookup_app_r by lia.
      rewrite lookup_app_r by (rewrite length_replicate; lia).
      rewrite length_replicate.
      by replace (i - length arr - (i - length arr)) with 0 by lia.
  - destruct (decide (i < length arr)) as [Hi|Hi].
    + rewrite list_lookup_insert_ne by done.
      destruct (decide (j < length arr)); [done|].
      rewrite lookup_ge_None_2 by lia. by case_decide; [lia|].
    + destruct (decide (j < length arr)) as [Hj|Hj].
      * by rewrite lookup_app_l.
      * rewrite lookup_app_r by lia.
        destruct (decide (j < i)) as [Hji|Hji].
        -- rewrite lookup_app_l by (rewrite length_replicate; lia).
           apply lookup_replicate_2. lia.
        -- rewrite lookup_app_r by (rewrite length_replicate; lia).
           rewrite length_replicate.
           apply lookup_ge_None_2. simpl. lia.
Qed.

Lemma js_set_comm arr i j v w :
  i ≠ j →
  js_set hole (js_set hole arr i v) j w = js_set hole (js_set hole arr j w) i v.
Proof.
  intros Hne. apply list_eq. intros k.
  rewrite !js_set_lookup, !js_set_length.
  repeat case_decide; try done; try lia.
Qed.
End js_array_more.

(** *** The page list *)

Lemma renderSlot_step _pageFn s pc p i :
  renderSlot _pageFn s (pc, p) i =
    (match js_get None pc i with
     | Some e => if keepsEntry _pageFn s i e then pc
                 else js_set None pc i (Some (freshEntry _pageFn s i))
     | None => js_set None pc i (Some (freshEntry _pageFn s i))
     end,
     p ++ [component (slotEntry _pageFn s pc i)]).
Proof.
  unfold renderSlot, slotEntry, keepsEntry, freshEntry.
  destruct (js_get None pc i) as [e|]; [|done].
  by destruct (strict_neq _ _ || _).
Qed.

Lemma renderSlot_step_entries _pageFn s pc p i :
  let pc' := (renderSlot _pageFn s (pc, p) i).1 in
  js_get None pc' i = Some (slotEntry _pageFn s pc i) ∧
  (∀ j, j ≠ i → js_get None pc' j = js_get None pc j).
Proof.
  rewrite renderSlot_step. simpl. unfold slotEntry.
  destruct (js_get None pc i) as [e|] eqn:Hget.
  - destruct (keepsEntry _ _ _ _).
    + split; [done|]. done.
    + split; [apply js_get_set_eq|]. intros j Hj. by apply js_get_set_ne.
  - split; [apply js_get_set_eq|]. intros j Hj. by apply js_get_set_ne.
Qed.

(** The loop of lines 171-184: slot [i] is decided by what the cache held at
    index [i] before the loop, whatever the earlier slots did. *)
Lemma renderSlot_foldl _pageFn s pc n :
  let r := foldl (renderSlot _pageFn s) (pc, []) (seq 0 n) in
  r.2 = (λ i, component (slotEntry _pageFn s pc i)) <$> seq 0 n ∧
  (∀ i, i < n → js_get None r.1 i = Some (slotEntry _pageFn s pc i)) ∧
  (∀ j, n ≤ j → js_get None r.1 j = js_get None pc j).
Proof.
  induction n as [|n IH]; cbv zeta.
  - simpl. split_and!; [done | lia | done].
  - rewrite seq_S, foldl_app. simpl.
    destruct (foldl (renderSlot _pageFn s) (pc, []) (seq 0 n)) as [pcn pn] eqn:E.
    simpl in IH. destruct IH as (Hp & Hlt & Hge).
    assert (Hsame : slotEntry _pageFn s pcn n = slotEntry _pageFn s pc n).
    { unfold slotEntry. by rewrite (Hge n) by lia. }
    destruct (renderSlot_step_entries _pageFn s pcn pn n) as (Hn & Hothers).
    rewrite renderSlot_step in *. simpl in *.
    split_and!.
    + rewrite fmap_app. simpl. by rewrite Hp, Hsame.
    + intros i Hi. destruct (decide (i = n)) as [->|Hne].
      * by rewrite Hn, Hsame.
      * rewrite Hothers by done. apply Hlt. lia.
    + intros j Hj. rewrite Hothers by lia. apply Hge. lia.
Qed.

Section pages.
Variable pageKey : string.
Implicit Types (s : State) (i j : nat).

(** What [renderPages] returns and leaves in the page cache, in terms of
    the cache array it found. *)
Lemma renderPages_spec _pageFn s :
  let pc := default [] (pageCacheMap s !! pageKey) in
  let r := renderPages pageKey _pageFn s in
  r.1 = (λ i, component (slotEntry _pageFn s pc i)) <$> seq 0 (pageCount s) ∧
  ∃ pc', pageCacheMap r.2 !! pageKey = Some pc' ∧
    (∀ i, i < pageCount s → js_get None pc' i = Some (slotEntry _pageFn s pc i)) ∧
    (∀ j, pageCount s ≤ j → js_get None pc' j = js_get None pc j) ∧
    (∀ k, k ≠ pageKey → pageCacheMap r.2 !! k = pageCacheMap s !! k).
Proof.
  unfold renderPages.
  set (s0 := match pageCacheMap s !! pageKey with
             | None => pageCacheMap_reset pageKey s
             | Some _ => s
             end).
  assert (Hs0 : pageCount s0 = pageCount s ∧ pageOffsets s0 = pageOffsets s ∧
                pageSWRs s0 = pageSWRs s ∧
                default [] (pageCacheMap s0 !! pageKey)
                  = default [] (pageCacheMap s !! pageKey) ∧
                ∀ k, k ≠ pageKey → pageCacheMap s0 !! k = pageCacheMap s !! k).
  { subst s0. destruct (pageCacheMap s !! pageKey) eqn:E; simpl.
    - by rewrite E.
    - rewrite lookup_insert_eq. split_and!; try done.
      intros k Hk. by rewrite lookup_insert_ne. }
  destruct Hs0 as (Hc & Ho & Hw & Hpc & Hk).
  assert (Hentry : ∀ pc i, slotEntry _pageFn s0 pc i = slotEntry _pageFn s pc i).
  { intros pc i. unfold slotEntry, keepsEntry, freshEntry. by rewrite Ho, Hw. }
  pose proof (renderSlot_foldl _pageFn s0
                (default [] (pageCacheMap s0 !! pageKey)) (pageCount s0)) as Hloop.
  destruct (foldl _ _ _) as [pc' p]. simpl in *.
  destruct Hloop as (Hp & Hlt & Hge).
  rewrite Hc, Hpc in *.
  split.
  - rewrite Hp. apply list_fmap_ext. intros ? i _. by rewrite Hentry.
  - exists pc'. rewrite lookup_insert_eq. split_and!; [done| | |].
    + intros i Hi. by rewrite Hlt, Hentry.
    + done.
    + intros k Hne. rewrite lookup_insert_ne by done. by apply Hk.
Qed.

End pages.

Lemma keepsEntry_true _pageFn s i e :
  keepsEntry _pageFn s i e = true ↔
    strict_eq (offset e) (js_get JUndefined (pageOffsets s) i) = true ∧
    pageFn e = _pageFn.
Proof.
  unfold keepsEntry, strict_neq.
  rewrite negb_true_iff, orb_false_iff, !negb_false_iff, Nat.eqb_eq. done.
Qed.

(** X1.  The page list has exactly [pageCount] pages.  The page of slot [i]
    is the cached element when the cache holds an entry at [i] whose offset
    is [===] to [pageOffsets[i]] and whose page function is the current one;
    in every other case (no entry, another offset, another page function) it
    is a new element with offset [pageOffsets[i]], key from that offset and
    [i], and a reporter over the current [pageSWRs] and [pageOffsets]. *)
Theorem renderPages_pages pageKey _pageFn s :
  let pc := default [] (pageCacheMap s !! pageKey) in
  let pages := (renderPages pageKey _pageFn s).1 in
  let new i :=
    mkElement (js_get JUndefined (pageOffsets s) i, i)
              (js_get JUndefined (pageOffsets s) i)
              (mkReporter (pageSWRs s) (pageOffsets s) i) in
  length pages = pageCount s ∧
  ∀ i, i < pageCount s →
    (∀ e, js_get None pc i = Some e →
          strict_eq (offset e) (js_get JUndefined (pageOffsets s) i) = true →
          pageFn e = _pageFn →
          pages !! i = Some (component e)) ∧
    (∀ e, js_get None pc i = Some e →
          strict_eq (offset e) (js_get JUndefined (pageOffsets s) i) = false
            ∨ pageFn e ≠ _pageFn →
          pages !! i = Some (new i)) ∧
    (js_get None pc i = None → pages !! i = Some (new i)).
Proof.
  intros pc pages new.
  destruct (renderPages_spec pageKey _pageFn s) as (Hp & _).
  fold pc in Hp. fold pages in Hp.
  assert (Hi : ∀ i, i < pageCount s →
                 pages !! i = Some (component (slotEntry _pageFn s pc i))).
  { intros i Hi. rewrite Hp, list_lookup_fmap, lookup_seq_lt by done. done. }
  split.
  - by rewrite Hp, length_fmap, length_seq.
  - intros i Hlt. rewrite (Hi i Hlt). unfold slotEntry. split_and!.
    + intros e -> Heq Hfn.
      by rewrite (proj2 (keepsEntry_true _pageFn s i e) (conj Heq Hfn)).
    + intros e -> Hcase.
      destruct (keepsEntry _pageFn s i e) eqn:Hk; [|done].
      apply keepsEntry_true in Hk as [Heq Hfn].
      destruct Hcase as [Hne|Hne]; [congruence | done].
    + by intros ->.
Qed.

Lemma renderPages_pages_witness :
  let pages := (renderPages projects 0 loaded).1 in
  let pages' := (renderPages projects 1 loaded).1 in
  length pages = 1 ∧
  reporterOf pages 0 = Some cachedReporter ∧
  reporterOf pages' 0 = Some (mkReporter (pageSWRs loaded) (pageOffsets loaded) 0).
Proof.
  intros pages pages'.
  destruct (renderPages_pages projects 0 loaded) as (Hlen & Hslot).
  destruct (renderPages_pages projects 1 loaded) as (_ & Hslot').
  assert (H0 : 0 < pageCount loaded) by (vm_compute; lia).
  destruct (Hslot 0 H0) as (Hkeep & _ & _).
  destruct (Hslot' 0 H0) as (_ & Hnew & _).
  set (e := mkEntry (mkElement (JNull, 0) JNull cachedReporter) 0 JNull).
  assert (Hget : js_get None (default [] (pageCacheMap loaded !! projects)) 0 = Some e)
    by (vm_compute; reflexivity).
  split_and!.
  - exact Hlen.
  - unfold reporterOf, pages.
    rewrite (Hkeep e Hget); [done | vm_compute; reflexivity | reflexivity].
  - unfold reporterOf, pages'.
    rewrite (Hnew e Hget); [done | right; discriminate].
Defined.

(** X2.  A render of the page list writes nothing but the page cache of its
    own key: the React state, the ref and the SWR cache are as before, and so
    are the cached arrays of other keys.  Afterwards the cache of the key
    holds, at every index below [pageCount], the entry of the page that was
    returned for that slot; what it held at higher indices stays. *)
Theorem renderPages_cache pageKey _pageFn s :
  let pc := default [] (pageCacheMap s !! pageKey) in
  let r := renderPages pageKey _pageFn s in
  (pageCount r.2 = pageCount s ∧ pageOffsets r.2 = pageOffsets s ∧
   pageSWRs r.2 = pageSWRs s ∧ emptyPageRef r.2 = emptyPageRef s ∧
   cache r.2 = cache s) ∧
  (∀ k, k ≠ pageKey → pageCacheMap r.2 !! k = pageCacheMap s !! k) ∧
  ∃ pc', pageCacheMap r.2 !! pageKey = Some pc' ∧
    (∀ i, i < pageCount s →
       ∃ e, js_get None pc' i = Some e ∧ r.1 !! i = Some (component e)) ∧
    (∀ j, pageCount s ≤ j → js_get None pc' j = js_get None pc j).
Proof.
  intros pc r.
  destruct (renderPages_spec pageKey _pageFn s)
    as (Hp & pc' & Hpc' & Hlt & Hge & Hk).
  split; [apply renderPages_state|]. split; [exact Hk|].
  exists pc'. split_and!; [done| |done].
  intros i Hi. eexists. split; [by apply Hlt|].
  subst r. rewrite Hp, list_lookup_fmap, lookup_seq_lt by done. done.
Qed.

Lemma renderPages_cache_witness :
  let r := renderPages projects 0 fresh in
  fresh.(pageCacheMap) !! projects = None ∧
  (∃ pc', pageCacheMap r.2 !! projects = Some pc' ∧
          ∃ e, js_get None pc' 0 = Some e ∧ r.1 !! 0 = Some (component e)) ∧
  cache r.2 = cache fresh.
Proof.
  intros r.
  destruct (renderPages_cache projects 0 fresh)
    as ((_ & _ & _ & _ & Hc) & _ & pc' & Hpc' & Hlt & _).
  split_and!; [done| |exact Hc].
  exists pc'. split; [exact Hpc'|]. apply Hlt. simpl. lia.
Defined.

(** X3.  Page elements are stable: after a render, any later render with the
    same page function, the same [pageCount] and [pageOffsets] and the page
    cache that render left returns the very same elements, whatever happened
    to [pageSWRs], to the ref or to the SWR cache in between, provided no
    offset in use is [NaN] (the one value not [===] to itself).  In
    particular the returned elements still carry the reporters of the
    earlier render. *)
Theorem renderPages_stable pageKey _pageFn s s' :
  (∀ i, i < pageCount s →
     strict_eq (js_get JUndefined (pageOffsets s) i)
               (js_get JUndefined (pageOffsets s) i) = true) →
  pageCount s' = pageCount s →
  pageOffsets s' = pageOffsets s →
  pageCacheMap s' !! pageKey
    = pageCacheMap (renderPages pageKey _pageFn s).2 !! pageKey →
  (renderPages pageKey _pageFn s').1 = (renderPages pageKey _pageFn s).1.
Proof.
  intros Hnan Hc Ho Hm.
  destruct (renderPages_spec pageKey _pageFn s) as (Hp & pc' & Hpc' & Hlt & _).
  destruct (renderPages_spec pageKey _pageFn s') as (Hp' & _).
  rewrite Hp', Hp, Hc. rewrite Hm, Hpc'. simpl.
  apply list_eq. intros i. rewrite !list_lookup_fmap.
  destruct (decide (i < pageCount s)) as [Hi|Hi].
  2: { by rewrite lookup_seq_ge by lia. }
  rewrite lookup_seq_lt by done. simpl. f_equal. f_equal.
  unfold slotEntry at 1. rewrite (Hlt i Hi).
  set (e := slotEntry _pageFn s (default [] (pageCacheMap s !! pageKey)) i).
  assert (Hk : keepsEntry _pageFn s' i e = true); [|by rewrite Hk].
  apply keepsEntry_true. rewrite Ho. subst e. unfold slotEntry.
  destruct (js_get None _ i) as [e0|].
  - destruct (keepsEntry _pageFn s i e0) eqn:Hk0.
    + by apply keepsEntry_true in Hk0.
    + simpl. split; [by apply Hnan | done].
  - simpl. split; [by apply Hnan | done].
Qed.

Lemma renderPages_stable_witness :
  let s := resetPages projects (renderPages projects 0 fresh).2 in
  let s' := report projects nextCursor cachedReporter (response JUndefined)
              (renderPages projects 0 s).2 in
  pageSWRs s' ≠ pageSWRs s ∧
  (renderPages projects 0 s').1 = (renderPages projects 0 s).1 ∧
  reporterOf (renderPages projects 0 s').1 0 = Some cachedReporter.
Proof.
  intros s s'.
  assert (Hsame : (renderPages projects 0 s').1 = (renderPages projects 0 s).1).
  { apply (renderPages_stable projects 0 s s').
    - intros i Hi. assert (i = 0) as -> by (vm_compute in Hi; lia).
      vm_compute. reflexivity.
    - vm_compute. reflexivity.
    - vm_compute. reflexivity.
    - vm_compute. reflexivity. }
  split_and!.
  - discriminate.
  - exact Hsame.
  - rewrite Hsame. vm_compute. reflexivity.
Defined.

(** *** Steps of the hook *)

Lemma pageCountKey_inj k1 k2 : pageCountKey k1 = pageCountKey k2 → k1 = k2.
Proof. unfold pageCountKey. intros H. simpl in H. by simplify_eq. Qed.

Lemma pageOffsetKey_inj k1 k2 : pageOffsetKey k1 = pageOffsetKey k2 → k1 = k2.
Proof. unfold pageOffsetKey. intros H. simpl in H. by simplify_eq. Qed.

(** X5.  A hook under one page key never touches what belongs to another
    key: no step of the hook for [pageKey] changes the persisted page count,
    the persisted offsets or the cached page elements of a different key. *)
Theorem step_other_key pageKey SWRToOffset other s s' :
  other ≠ pageKey →
  step pageKey SWRToOffset s s' →
  cache s' !! pageCountKey other = cache s !! pageCountKey other ∧
  cache s' !! pageOffsetKey other = cache s !! pageOffsetKey other ∧
  pageCacheMap s' !! other = pageCacheMap s !! other.
Proof.
  intros Hne Hstep.
  assert (Hcc : pageCountKey pageKey ≠ pageCountKey other)
    by (intros E; by apply pageCountKey_inj in E).
  assert (Hoo : pageOffsetKey pageKey ≠ pageOffsetKey other)
    by (intros E; by apply pageOffsetKey_inj in E).
  pose proof (pageCountKey_ne_pageOffsetKey pageKey other) as Hco.
  pose proof (not_eq_sym (pageCountKey_ne_pageOffsetKey other pageKey)) as Hoc.
  destruct Hstep as [s|r s|rp swr s|d s|f s].
  - simpl. by rewrite !lookup_insert_ne by done.
  - unfold loadMore. destruct (_ || _); simpl; [done|].
    by rewrite !lookup_insert_ne by done.
  - destruct (report_cases pageKey SWRToOffset rp swr s) as [-> | ->]; [done|].
    unfold reportCallback. repeat case_match; simpl; try done.
    by rewrite !lookup_insert_ne by done.
  - done.
  - destruct (renderPages_state pageKey f s) as (_ & _ & _ & _ & ->).
    destruct (renderPages_spec pageKey f s) as (_ & pc' & _ & _ & _ & Hk).
    split_and!; [done..|]. by apply Hk.
Qed.

Lemma step_other_key_witness :
  let s := resetPages "teams" fresh in
  let s' := resetPages projects (LoadMore "teams" s) in
  cache s' !! pageCountKey "teams" = Some (CNum 2) ∧
  cache s' !! pageOffsetKey "teams" = Some (CArr [JNull]) ∧
  pageCacheMap s' !! "teams" = Some [].
Proof.
  intros s s'.
  destruct (step_other_key projects nextCursor "teams" (LoadMore "teams" s) s')
    as (Hc & Ho & Hm); [discriminate | apply step_reset |].
  rewrite Hc, Ho, Hm. split_and!; vm_compute; reflexivity.
Defined.

(** X6.  Only [resetPages] lowers [pageCount] or shortens [pageOffsets]:
    every other step keeps [pageCount] or adds one to it, and never makes
    [pageOffsets] shorter.  No step at all brings [pageCount] below 1. *)
Theorem step_monotone pageKey SWRToOffset s s' :
  step pageKey SWRToOffset s s' →
  (s' = resetPages pageKey s ∨
   (pageCount s ≤ pageCount s' ≤ pageCount s + 1 ∧
    length (pageOffsets s) ≤ length (pageOffsets s'))) ∧
  (1 ≤ pageCount s → 1 ≤ pageCount s').
Proof.
  intros Hstep. destruct Hstep as [s|r s|rp swr s|d s|f s].
  - split; [by left | simpl; lia].
  - unfold loadMore. destruct (_ || _); simpl; (split; [right|]; lia).
  - destruct (report_cases pageKey SWRToOffset rp swr s) as [-> | ->].
    + split; [right|]; lia.
    + rewrite reportCallback_pageCount.
      pose proof (reportCallback_length pageKey SWRToOffset
                    (rep_pageOffsets rp) (rep_id rp) swr s).
      split; [right|]; lia.
  - simpl. split; [right|]; lia.
  - destruct (renderPages_state pageKey f s) as (-> & -> & _).
    split; [right|]; lia.
Qed.

Lemma step_monotone_witness :
  let s := LoadMore projects fresh in
  let s' := report projects nextCursor (mkReporter [] [JNull] 2)
              (response (JObj 2)) s in
  step projects nextCursor s s' ∧
  pageCount s' = 2 ∧
  length (pageOffsets s) = 1 ∧ length (pageOffsets s') = 4.
Proof.
  intros s s'.
  assert (Hstep : step projects nextCursor s s') by apply step_report.
  destruct (step_monotone projects nextCursor s s' Hstep) as ([Hr|(Hc & Hl)] & _).
  - exfalso. revert Hr. discriminate.
  - split_and!; [exact Hstep | vm_compute in Hc |- *; lia | done | done].
Defined.

(** *** What is persisted *)

Lemma reachable_persisted pageKey SWRToOffset s :
  reachable pageKey SWRToOffset s →
  1 ≤ pageCount s ∧
  (cache s !! pageCountKey pageKey = None ∧ pageCount s = 1
   ∨ cache s !! pageCountKey pageKey = Some (CNum (pageCount s))) ∧
  (cache s !! pageOffsetKey pageKey = None ∧ pageOffsets s = [JNull]
   ∨ cache s !! pageOffsetKey pageKey = Some (CArr (pageOffsets s))).
Proof.
  pose proof (pageCountKey_ne_pageOffsetKey pageKey pageKey) as Hco.
  induction 1 as [c m s Hc Ho Hs|s _ IH|r s _ IH|rp swr s _ IH|d s _ IH|f s _ IH].
  - rewrite (initialState_default pageKey c m s Hc Ho Hs). simpl.
    split_and!; [lia | by left | by left].
  - simpl. split_and!; [lia | right | right].
    + rewrite lookup_insert_ne by (by apply not_eq_sym).
      by rewrite lookup_insert_eq.
    + by rewrite lookup_insert_eq.
  - destruct IH as (H1 & Hc & Ho). unfold loadMore.
    destruct (_ || _); simpl; [done|].
    split_and!; [lia | right; by rewrite lookup_insert_eq |].
    by rewrite lookup_insert_ne.
  - destruct IH as (H1 & Hc & Ho).
    destruct (report_cases pageKey SWRToOffset rp swr s) as [-> | ->]; [done|].
    unfold reportCallback. repeat case_match; simpl; try done.
    split_and!; [done | | right; by rewrite lookup_insert_eq].
    by rewrite lookup_insert_ne by (by apply not_eq_sym).
  - done.
  - destruct (renderPages_state pageKey f s) as (-> & -> & _ & _ & ->). done.
Qed.

(** X7.  What the hook persists is enough to restore it: in every reachable
    state, the initial state that a new mount computes from the SWR cache has
    the [pageCount] and the [pageOffsets] of that state (with no stored
    results and a cleared ref). *)
Theorem initialState_restores pageKey SWRToOffset s m :
  reachable pageKey SWRToOffset s →
  initialState pageKey (cache s) m =
    Some (mkState (pageCount s) (pageOffsets s) [] (JBool false) (cache s) m []).
Proof.
  intros Hs.
  destruct (reachable_persisted pageKey SWRToOffset s Hs) as (H1 & Hc & Ho).
  unfold initialState, initialPageCount, initialPageOffsets.
  destruct Hc as [[-> ->] | ->], Ho as [[-> ->] | ->]; simpl; try done.
  - destruct (Nat.eqb_spec (pageCount s) 0); [lia | done].
  - destruct (Nat.eqb_spec (pageCount s) 0); [lia | done].
Qed.

Lemma initialState_restores_witness :
  let s := ReportFetchResult projects nextCursor 0 (response (JObj 2))
             (LoadMore projects fresh) in
  reachable projects nextCursor s ∧
  pageCount s = 2 ∧ pageOffsets s = [JNull; JStr "c1"] ∧
  initialState projects (cache s) ∅ =
    Some (mkState 2 [JNull; JStr "c1"] [] (JBool false) (cache s) ∅ []).
Proof.
  intros s.
  assert (Hr : reachable projects nextCursor s).
  { apply reach_report, reach_loadMore, fresh_reachable. }
  split_and!; [exact Hr | reflexivity | reflexivity |].
  exact (initialState_restores projects nextCursor s ∅ Hr).
Defined.

(** *** Reports *)

Section reports.
Variable pageKey : string.
Variable SWRToOffset : SWR → nat → jsval.
Implicit Types (s : State) (swr : SWR) (rp : Reporter).

Lemma copy_SWR swr :
  mkSWR (data swr) (error swr) (revalidate swr) (isValidating swr) (mutate swr) = swr.
Proof. by destruct swr. Qed.

Lemma report_same_fields rp swr s1 s2 :
  pageCount s1 = pageCount s2 → pageOffsets s1 = pageOffsets s2 →
  pageSWRs s1 = pageSWRs s2 → cache s1 = cache s2 →
  let a := report pageKey SWRToOffset rp swr s1 in
  let b := report pageKey SWRToOffset rp swr s2 in
  pageCount a = pageCount b ∧ pageOffsets a = pageOffsets b ∧
  pageSWRs a = pageSWRs b ∧ cache a = cache b.
Proof.
  intros Hc Ho Hw Hk a b. subst a b. unfold report, getWithSWR.
  destruct (swrChanged _ swr); [|done].
  unfold reportCallback. repeat case_match; simpl; by rewrite ?Hc, ?Ho, ?Hw, ?Hk.
Qed.

Lemma report_report_comm rp1 rp2 swr1 swr2 s :
  rep_id rp1 ≠ rep_id rp2 →
  let a := report pageKey SWRToOffset rp2 swr2
             (report pageKey SWRToOffset rp1 swr1 s) in
  let b := report pageKey SWRToOffset rp1 swr1
             (report pageKey SWRToOffset rp2 swr2 s) in
  pageCount a = pageCount b ∧ pageOffsets a = pageOffsets b ∧
  pageSWRs a = pageSWRs b ∧ cache a = cache b.
Proof.
  intros Hne a b. subst a b.
  assert (Hne' : rep_id rp1 + 1 ≠ rep_id rp2 + 1) by lia.
  unfold report, getWithSWR.
  destruct (swrChanged _ swr1), (swrChanged _ swr2); try done;
    unfold reportCallback;
    destruct (strict_neq (data swr1) JUndefined),
             (strict_neq (data swr2) JUndefined),
             (strict_neq (js_get JUndefined (rep_pageOffsets rp1) (rep_id rp1 + 1))
                         (SWRToOffset swr1 (rep_id rp1))),
             (strict_neq (js_get JUndefined (rep_pageOffsets rp2) (rep_id rp2 + 1))
                         (SWRToOffset swr2 (rep_id rp2)));
    simpl; split_and!; try done;
    rewrite ?insert_insert_eq;
    try (by rewrite (js_set_comm None _ _ _ _ _ Hne));
    by rewrite (js_set_comm JUndefined _ _ _ _ _ Hne').
Qed.

(** X8.  Two reports that are already scheduled, for different slots,
    commute on what reports write: whichever of the two timers fires first,
    and with a render of the page list after each of them, the page count,
    the offsets, the stored results and the SWR cache end up the same.  (The
    page cache is not part of this: the renders in between may build a
    page's element at different moments in the two orders.) *)
Theorem reports_commute rp1 rp2 swr1 swr2 f1 f2 s :
  rep_id rp1 ≠ rep_id rp2 →
  let a := (renderPages pageKey f2
              (report pageKey SWRToOffset rp2 swr2
                 (renderPages pageKey f1
                    (report pageKey SWRToOffset rp1 swr1 s)).2)).2 in
  let b := (renderPages pageKey f2
              (report pageKey SWRToOffset rp1 swr1
                 (renderPages pageKey f1
                    (report pageKey SWRToOffset rp2 swr2 s)).2)).2 in
  pageCount a = pageCount b ∧ pageOffsets a = pageOffsets b ∧
  pageSWRs a = pageSWRs b ∧ cache a = cache b.
Proof.
  intros Hne a b. subst a b.
  destruct (report_report_comm rp1 rp2 swr1 swr2 s Hne) as (Hc & Ho & Hw & Hk).
  set (x := report pageKey SWRToOffset rp1 swr1 s) in *.
  set (y := report pageKey SWRToOffset rp2 swr2 s) in *.
  destruct (renderPages_state pageKey f1 x) as (Hx1 & Hx2 & Hx3 & _ & Hx4).
  destruct (renderPages_state pageKey f1 y) as (Hy1 & Hy2 & Hy3 & _ & Hy4).
  destruct (report_same_fields rp2 swr2 _ x Hx1 Hx2 Hx3 Hx4) as (A1 & A2 & A3 & A4).
  destruct (report_same_fields rp1 swr1 _ y Hy1 Hy2 Hy3 Hy4) as (B1 & B2 & B3 & B4).
  destruct (renderPages_state pageKey f2
              (report pageKey SWRToOffset rp2 swr2 (renderPages pageKey f1 x).2))
    as (-> & -> & -> & _ & ->).
  destruct (renderPages_state pageKey f2
              (report pageKey SWRToOffset rp1 swr1 (renderPages pageKey f1 y).2))
    as (-> & -> & -> & _ & ->).
  rewrite A1, A2, A3, A4, B1, B2, B3, B4. done.
Qed.

End reports.

Lemma reports_commute_witness :
  let s := LoadMore projects fresh in
  let rp0 := mkReporter [] [JNull] 0 in
  let rp1 := mkReporter [] [JNull] 1 in
  let ra := renderPages projects 0
              (report projects nextCursor rp1 (response (JObj 3))
                 (renderPages projects 0
                    (report projects nextCursor rp0 (response (JObj 2)) s)).2) in
  let rb := renderPages projects 0
              (report projects nextCursor rp0 (response (JObj 2))
                 (renderPages projects 0
                    (report projects nextCursor rp1 (response (JObj 3)) s)).2) in
  pageOffsets ra.2 = [JNull; JStr "c1"; JStr "c2"] ∧
  pageOffsets rb.2 = [JNull; JStr "c1"; JStr "c2"] ∧
  pageSWRs ra.2 = pageSWRs rb.2 ∧ cache ra.2 = cache rb.2 ∧
  reporterOf ra.1 1 ≠ reporterOf rb.1 1.
Proof.
  intros s rp0 rp1 ra rb.
  destruct (reports_commute projects nextCursor rp0 rp1
              (response (JObj 2)) (response (JObj 3)) 0 0 s)
    as (_ & Ho & Hw & Hc); [discriminate|].
  fold ra in Ho, Hw, Hc. fold rb in Ho, Hw, Hc.
  split_and!; [vm_compute; reflexivity | by rewrite <- Ho | exact Hw | exact Hc |].
  vm_compute. discriminate.
Defined.

(** X9.  A report that passes the identity test of its reporter stores the
    reported result at its slot: [pageSWRs[id]] then reads as the five fields
    reported, and [pageSWRs] has grown just enough to hold the slot, the
    slots skipped on the way reading [undefined].  The offsets and the
    persisted offsets are written when the data is defined and the offset the
    reporter holds at [id + 1] is [!==] to the derived one: then
    [pageOffsets[id + 1]] reads as the derived offset, the array has grown
    just enough to hold it, and the SWR cache holds the new array.  Otherwise
    the offsets and the SWR cache are not touched. *)
Theorem report_stores pageKey SWRToOffset rp swr s :
  swrChanged (js_get None (rep_pageSWRs rp) (rep_id rp)) swr = true →
  let id := rep_id rp in
  let s' := report pageKey SWRToOffset rp swr s in
  js_get None (pageSWRs s') id = Some swr ∧
  length (pageSWRs s') = length (pageSWRs s) `max` (id + 1) ∧
  (∀ j, length (pageSWRs s) ≤ j < id → pageSWRs s' !! j = Some None) ∧
  if strict_neq (data swr) JUndefined
     && strict_neq (js_get JUndefined (rep_pageOffsets rp) (id + 1))
                   (SWRToOffset swr id)
  then js_get JUndefined (pageOffsets s') (id + 1) = SWRToOffset swr id ∧
       length (pageOffsets s') = length (pageOffsets s) `max` (id + 2) ∧
       (∀ j, length (pageOffsets s) ≤ j < id + 1 →
          pageOffsets s' !! j = Some JUndefined) ∧
       cache s' !! pageOffsetKey pageKey = Some (CArr (pageOffsets s'))
  else pageOffsets s' = pageOffsets s ∧ cache s' = cache s.
Proof.
  intros Hch id s'. subst id s'. unfold report, getWithSWR. rewrite Hch.
  rewrite reportCallback_pageSWRs, copy_SWR, reportCallback_pageOffsets.
  split_and!.
  - apply js_get_set_eq.
  - apply js_set_length.
  - intros j Hj. rewrite js_set_lookup. repeat case_decide; (done || lia).
  - destruct (strict_neq (data swr) JUndefined && _) eqn:Hw.
    + split_and!.
      * apply js_get_set_eq.
      * rewrite js_set_length. lia.
      * intros j Hj. rewrite js_set_lookup. repeat case_decide; (done || lia).
      * apply andb_true_iff in Hw as [Hd Hne].
        unfold reportCallback. rewrite Hd, Hne. simpl.
        by rewrite lookup_insert_eq.
    + split; [done|]. unfold reportCallback.
      destruct (strict_neq (data swr) JUndefined); [|done].
      simpl in Hw. by rewrite Hw.
Qed.

Lemma report_stores_witness :
  let rp := mkReporter [] [JNull] 2 in
  let s' := report projects nextCursor rp (response (JObj 2)) fresh in
  swrChanged (js_get None (rep_pageSWRs rp) 2) (response (JObj 2)) = true ∧
  pageSWRs s' = [None; None; Some (response (JObj 2))] ∧
  pageOffsets s' = [JNull; JUndefined; JUndefined; JStr "c1"] ∧
  js_get None (pageSWRs s') 2 = Some (response (JObj 2)) ∧
  cache s' !! pageOffsetKey projects = Some (CArr (pageOffsets s')).
Proof.
  intros rp s'.
  destruct (report_stores projects nextCursor rp (response (JObj 2)) fresh eq_refl)
    as (Hget & _ & _ & Hoff).
  unfold rp in Hoff. simpl in Hoff. destruct Hoff as (_ & _ & _ & Hc).
  split_and!; [reflexivity | reflexivity | reflexivity | exact Hget | exact Hc].
Defined.

(** X10.  A report is not discarded by a reset: when a report whose timer
    was set before [resetPages] ran passes the tests of its reporter after
    it, it writes into the reset state.  The offsets become [null], then
    [undefined] for the slots in between, then the derived offset at
    [id + 1]; they are persisted; the stored results hold the report at [id];
    [pageCount] is still 1 and [isLoadingMore] is false. *)
Theorem report_after_reset pageKey SWRToOffset rp swr s :
  swrChanged (js_get None (rep_pageSWRs rp) (rep_id rp)) swr = true →
  data swr ≠ JUndefined →
  strict_neq (js_get JUndefined (rep_pageOffsets rp) (rep_id rp + 1))
             (SWRToOffset swr (rep_id rp)) = true →
  let s' := report pageKey SWRToOffset rp swr (resetPages pageKey s) in
  pageOffsets s' =
    JNull :: replicate (rep_id rp) JUndefined ++ [SWRToOffset swr (rep_id rp)] ∧
  pageSWRs s' = replicate (rep_id rp) None ++ [Some swr] ∧
  cache s' !! pageOffsetKey pageKey = Some (CArr (pageOffsets s')) ∧
  pageCount s' = 1 ∧
  isLoadingMore s' = false.
Proof.
  intros Hch Hd Hne s'.
  assert (Hdef : strict_neq (data swr) JUndefined = true).
  { destruct (strict_neq (data swr) JUndefined) eqn:E; [done|].
    by apply strict_neq_undefined in E. }
  assert (Ho : pageOffsets s' =
               JNull :: replicate (rep_id rp) JUndefined
                 ++ [SWRToOffset swr (rep_id rp)]).
  { subst s'. unfold report, getWithSWR. rewrite Hch.
    rewrite reportCallback_pageOffsets, Hdef, Hne. simpl.
    unfold js_set. simpl. case_decide; [lia|].
    by replace (rep_id rp + 1 - 1) with (rep_id rp) by lia. }
  split_and!.
  - exact Ho.
  - subst s'. unfold report, getWithSWR. rewrite Hch.
    rewrite reportCallback_pageSWRs, copy_SWR. simpl.
    apply list_eq. intros j. rewrite js_set_lookup. simpl.
    destruct (decide (j = rep_id rp)) as [->|Hj].
    + rewrite lookup_app_r by (rewrite length_replicate; lia).
      rewrite length_replicate. by rewrite Nat.sub_diag.
    + destruct (decide (j < rep_id rp)) as [Hlt|Hge].
      * rewrite lookup_app_l by (by rewrite length_replicate).
        rewrite lookup_replicate_2 by done.
        repeat case_decide; (done || (simpl in *; lia)).
      * rewrite (lookup_ge_None_2 (replicate _ _ ++ _))
          by (rewrite length_app, length_replicate; simpl; lia).
        repeat case_decide; (done || (simpl in *; lia)).
  - subst s'. unfold report, getWithSWR. rewrite Hch.
    unfold reportCallback. rewrite Hdef, Hne. simpl.
    by rewrite lookup_insert_eq.
  - subst s'. unfold report, getWithSWR. rewrite Hch.
    by rewrite reportCallback_pageCount.
  - unfold isLoadingMore. rewrite Ho.
    assert (Hc : pageCount s' = 1).
    { subst s'. unfold report, getWithSWR. rewrite Hch.
      by rewrite reportCallback_pageCount. }
    rewrite Hc. apply Nat.ltb_ge. simpl. lia.
Qed.

Lemma report_after_reset_witness :
  let rp := mkReporter [] [JNull; JStr "c1"] 1 in
  let s' := report projects nextCursor rp (response (JObj 1))
              (resetPages projects loaded) in
  pageOffsets s' = [JNull; JUndefined; JNull] ∧
  pageSWRs s' = [None; Some (response (JObj 1))] ∧
  isLoadingMore s' = false ∧
  isReachingEnd s' = false ∧
  isReachingEnd (LoadMore projects s') = true.
Proof.
  intros rp s'.
  destruct (report_after_reset projects nextCursor rp (response (JObj 1)) loaded)
    as (Ho & Hw & _ & _ & Hl); [reflexivity | discriminate | reflexivity |].
  split_and!; [exact Ho | exact Hw | exact Hl | |].
  - vm_compute. reflexivity.
  - vm_compute. reflexivity.
Defined.

(** *** [loadMore] through one callback *)

(** X11.  The guard of [loadMore] reads the flags of the render that made
    the callback, not the state at the time of the call.  Calls through one
    and the same callback therefore all do the same: when that render was
    loading or at the end, none of them changes anything; otherwise each of
    them adds one page, so [n] calls raise [pageCount] by [n] and the last
    count is the one persisted. *)
Theorem loadMore_same_callback pageKey r s n :
  (isLoadingMore r || isReachingEnd r = true →
     Nat.iter n (loadMore pageKey r) s = s) ∧
  (isLoadingMore r || isReachingEnd r = false →
     let s' := Nat.iter n (loadMore pageKey r) s in
     pageCount s' = pageCount s + n ∧
     pageOffsets s' = pageOffsets s ∧
     (0 < n → cache s' !! pageCountKey pageKey = Some (CNum (pageCount s + n)))).
Proof.
  split; intros Hg.
  - induction n as [|n IH]; simpl; [done|].
    rewrite IH. unfold loadMore. by rewrite Hg.
  - induction n as [|n IH]; simpl.
    + split_and!; [lia | done | lia].
    + destruct IH as (Hc & Ho & _). unfold loadMore at 1 3 5. rewrite Hg. simpl.
      rewrite Hc, Ho. split_and!; [lia | done |].
      intros _. rewrite lookup_insert_eq. do 2 f_equal. lia.
Qed.

Lemma loadMore_same_callback_witness :
  isLoadingMore fresh || isReachingEnd fresh = false ∧
  pageCount (loadMore projects fresh (loadMore projects fresh fresh)) = 3 ∧
  pageCount (LoadMore projects (LoadMore projects fresh)) = 2.
Proof.
  destruct (loadMore_same_callback projects fresh fresh 2) as (_ & H).
  destruct (H eq_refl) as (Hc & _).
  split_and!; [reflexivity | exact Hc | reflexivity].
Defined.

(** *** The value of [isEmpty] *)

(** X12.  [isEmpty] is not always a boolean: with one page that reached the
    end it is what line 99 left in the ref, and that is the returned value
    itself when the page function returned a falsy one ([undefined], [null],
    [false], [0], [NaN], the empty string).  In every reachable state it is
    [true] or falsy, never another truthy value: [if (isEmpty)] is taken
    only when [isEmpty] is [true]. *)
Theorem isEmpty_values pageKey SWRToOffset s :
  reachable pageKey SWRToOffset s →
  truthy (isEmpty s) = true → isEmpty s = JBool true.
Proof.
  intros Hs.
  assert (Href : truthy (emptyPageRef s) = true → emptyPageRef s = JBool true).
  { induction Hs as [c m s Hc Ho Hs|s _ IH|r s _ IH|rp swr s _ IH|d s _ IH|f s _ IH].
    - rewrite (initialState_default pageKey c m s Hc Ho Hs). simpl. done.
    - done.
    - unfold loadMore. by destruct (_ || _).
    - destruct (report_cases pageKey SWRToOffset rp swr s) as [-> | ->]; [done|].
      unfold reportCallback. by repeat case_match.
    - simpl. destruct d as [| |items|ref|[|]|z| |str]; simpl; try done.
      + by destruct (length items =? 0).
      + by destruct (z =? 0)%Z.
      + destruct (String.length str =? 0) eqn:E; simpl; [|done].
        by rewrite E.
    - destruct (renderPages_state pageKey f s) as (_ & _ & _ & -> & _). done. }
  unfold isEmpty. destruct (negb (isReachingEnd s)); [done|].
  destruct (negb (pageCount s =? 1)); [done|]. exact Href.
Qed.

Lemma isEmpty_values_witness :
  let run dataList :=
    ReportFetchResult projects nextCursor 0 (response (JObj 1))
      (Page dataList fresh) in
  reachable projects nextCursor (run (RItems [])) ∧
  truthy (isEmpty (run (RItems []))) = true ∧
  isEmpty (run (RItems [])) = JBool true ∧
  isEmpty (run RUndefined) = JUndefined ∧
  isEmpty (run (RStr "")) = JStr "" ∧
  isEmpty (run (RNum 0)) = JNum 0.
Proof.
  intros run.
  assert (Hr : reachable projects nextCursor (run (RItems []))).
  { apply reach_report, reach_page, fresh_reachable. }
  split_and!; [exact Hr | reflexivity | | reflexivity..].
  exact (isEmpty_values projects nextCursor _ Hr eq_refl).
Defined.

(** *** When loading ends *)


